(** * currency-format: [String.prototype.currencyFormat] and
      [String.prototype.currencyUnformat]

    A shallow embedding of [src/scripts/String.prototype.currencyFormat.js]
    and the properties of its two functions.

    A JavaScript string is a finite sequence of UTF-16 code units; it is
    modelled as a list of numbers.  The built-ins the source calls
    ([lastIndexOf], [slice], [split('')], [reverse], [replace] with a global
    character-class pattern, the keys a [for ... in] enumerates on an array,
    and the coercions of [+], [%] and [<]) are written out after
    ECMA-262. *)

From Stdlib Require Import Strings.Ascii Strings.String.
From Stdlib Require Import List Bool Arith ZArith NArith Lia.
From Stdlib Require DecimalFacts DecimalNat.
Import ListNotations.

Local Open Scope Z_scope.

(** ** The string built-ins *)

Module JS.

Definition code_unit : Type := N.
Definition str : Type := list code_unit.

(** A string literal of the source, as its code units. *)
Definition lit (s : String.string) : str :=
  map N_of_ascii (list_ascii_of_string s).

(** [a === b] on strings. *)
Fixpoint str_eqb (a b : str) : bool :=
  match a, b with
  | [], [] => true
  | x :: a', y :: b' => N.eqb x y && str_eqb a' b'
  | _, _ => false
  end.

(** [searchStr] sits in [S] at position [k]: [k + searchLen <= len] and
    the code units agree. *)
Definition match_at (S searchStr : str) (k : nat) : bool :=
  Nat.leb (k + length searchStr) (length S)
  && str_eqb (firstn (length searchStr) (skipn k S)) searchStr.

(** The largest [k <= start] at which [searchStr] sits, or [-1]. *)
Fixpoint lastIndexOf_from (S searchStr : str) (start : nat) : Z :=
  if match_at S searchStr start then Z.of_nat start
  else match start with
       | O => -1
       | Datatypes.S k => lastIndexOf_from S searchStr k
       end.

(** [S.lastIndexOf(searchStr)]: the position argument is absent, so the
    search starts at [min(max(+inf, 0), len) = len]. *)
Definition lastIndexOf (S searchStr : str) : Z :=
  lastIndexOf_from S searchStr (length S).

(** [S.slice(start, end)]; [end_ = None] is an absent [end]. *)
Definition slice (S : str) (start : Z) (end_ : option Z) : str :=
  let len := Z.of_nat (length S) in
  let from := if start <? 0 then Z.max (len + start) 0 else Z.min start len in
  let relEnd := match end_ with None => len | Some e => e end in
  let to := if relEnd <? 0 then Z.max (len + relEnd) 0 else Z.min relEnd len in
  let span := Z.max (to - from) 0 in
  firstn (Z.to_nat span) (skipn (Z.to_nat from) S).

(** [S.split('')]: one one-unit string per code unit. *)
Definition split_empty (S : str) : list str := map (fun c => [c]) S.

(** [a.reverse()]. *)
Definition reverse {A : Type} (a : list A) : list A := rev a.

(** The property keys of an array are the canonical decimal strings of its
    indices; [for (var i in a)] visits them in ascending order. *)
Definition key : Type := Decimal.uint.

Definition keys {A : Type} (a : list A) : list key :=
  map Nat.to_uint (seq 0 (length a)).

(** [ToNumber] of a string of decimal digits. *)
Definition ToNumber (k : key) : Z := Z.of_nat (Nat.of_uint k).

(** [i + n] with [i] a string and [n] a number: [n] is converted to its
    decimal string and appended. *)
Definition string_plus_number (i : key) (n : nat) : key :=
  Decimal.app i (Nat.to_uint n).

(** [a[i]] for an array of strings, used as an operand of [+]: a missing
    element is [undefined], which [+] turns into the string
    ["undefined"]. *)
Definition get (a : list str) (i : key) : str :=
  nth (Nat.of_uint i) a (lit "undefined").

(** Regular expressions of the shape [/[...]+/g] and [/[^...]+/g]: a
    character class, possibly negated, repeated one or more times, with
    the global flag. *)
Inductive class_atom : Type :=
| ClassDigit                      (* \d *)
| ClassChar (c : code_unit).      (* a literal, escaped or not *)

Record regex : Type := ClassPlusG {
  negated : bool;
  atoms : list class_atom
}.

Definition atom_matches (a : class_atom) (c : code_unit) : bool :=
  match a with
  | ClassDigit => (N.leb 48 c && N.leb c 57)%bool
  | ClassChar d => N.eqb c d
  end.

Definition class_matches (r : regex) (c : code_unit) : bool :=
  xorb (negated r) (existsb (fun a => atom_matches a c) (atoms r)).

(** [S.replace(r, replacement)] for such an [r]: scanning left to right,
    every maximal run of matching code units is one match (the [+] is
    greedy, the [g] flag resumes after each match) and is replaced by
    [replacement]; [in_run] tells that the previous code unit belongs to
    the match in progress. *)
Fixpoint replace_scan (r : regex) (replacement : str) (in_run : bool)
         (S : str) : str :=
  match S with
  | [] => []
  | c :: S' =>
      if class_matches r c
      then (if in_run then [] else replacement)
             ++ replace_scan r replacement true S'
      else c :: replace_scan r replacement false S'
  end.

Definition replace (S : str) (r : regex) (replacement : str) : str :=
  replace_scan r replacement false S.

End JS.

Import JS.

(** ** [String.prototype.currencyFormat] *)

(** [var decimalPosition = this.lastIndexOf(decimalSeparator)] *)
Definition decimalPosition (this decimalSeparator : str) : Z :=
  lastIndexOf this decimalSeparator.

(** [decimals = decimalPosition > -1 ? this.slice(decimalPosition) : ''] *)
Definition decimals (this decimalSeparator : str) : str :=
  let decimalPosition := decimalPosition this decimalSeparator in
  if decimalPosition >? -1 then slice this decimalPosition None else [].

(** [digits = decimalPosition > -1
       ? this.slice(0, decimalPosition).split('').reverse()
       : this.split('').reverse()] *)
Definition digits (this decimalSeparator : str) : list str :=
  let decimalPosition := decimalPosition this decimalSeparator in
  if decimalPosition >? -1
  then reverse (split_empty (slice this 0 (Some decimalPosition)))
  else reverse (split_empty this).

(** The test [(i + 1) % 3 === 0 && i < digitsLength - 1].  [i] is a key, a
    string: [i + 1] appends the digit 1 to it, [%] and [<] convert their
    string operand to a number. *)
Definition separatorDue (digitsLength : Z) (i : key) : bool :=
  (ToNumber (string_plus_number i 1) mod 3 =? 0)
  && (ToNumber i <? digitsLength - 1).

(** One turn of the loop body, from [units] to the next [units]. *)
Definition placeDigit (digits : list str) (digitsLength : Z)
           (groupSeparator : str) (units : str) (i : key) : str :=
  let units := get digits i ++ units in
  if separatorDue digitsLength i then groupSeparator ++ units else units.

(** [units] after [for (var i in digits) { ... }], from [units = '']. *)
Definition units (digits : list str) (groupSeparator : str) : str :=
  let digitsLength := Z.of_nat (length digits) in
  fold_left (placeDigit digits digitsLength groupSeparator) (keys digits) [].

(** How many turns of the loop take the branch
    [units = groupSeparator + units]. *)
Definition separatorsInserted (digits : list str) : nat :=
  let digitsLength := Z.of_nat (length digits) in
  length (filter (separatorDue digitsLength) (keys digits)).

Definition currencyFormat (this symbol groupSeparator decimalSeparator : str)
  : str :=
  if negb (str_eqb groupSeparator [])
  then symbol ++ units (digits this decimalSeparator) groupSeparator
              ++ decimals this decimalSeparator
  else symbol ++ this.

(** ** [String.prototype.currencyUnformat] *)

(** The default pattern [/[^\d|^\.]+/g]: inside the brackets only the first
    [^] negates; [|] and the second [^] are literals of the class. *)
Definition defaultPattern : regex :=
  ClassPlusG true
    [ClassDigit; ClassChar 124%N (* | *); ClassChar 94%N (* ^ *);
     ClassChar 46%N (* . *)].

(** [regex] is [None] when the argument is absent ([undefined] is falsy, a
    regular expression object is truthy). *)
Definition currencyUnformat (this : str) (regex : option regex) : str :=
  let pattern := match regex with Some r => r | None => defaultPattern end in
  replace this pattern [].

(** ** Notions of the specification *)

(** The part of the input before the split point, in reading order. *)
Definition integerPart (this decimalSeparator : str) : str :=
  concat (rev (digits this decimalSeparator)).

(** [searchStr] occurs in [S] at position [k]. *)
Definition occurs_at (searchStr S : str) (k : nat) : Prop :=
  exists pre post, S = pre ++ searchStr ++ post /\ length pre = k.

(** [groups.join(groupSeparator)]. *)
Definition joinGroups (groupSeparator : str) (groups : list str) : str :=
  match groups with
  | [] => []
  | g :: rest => g ++ flat_map (fun h => groupSeparator ++ h) rest
  end.

(** Cutting a string into consecutive pieces of the given sizes. *)
Fixpoint cutGroups (sizes : list nat) (s : str) : list str :=
  match sizes with
  | [] => []
  | n :: sizes' => firstn n s :: cutGroups sizes' (skipn n s)
  end.

(** The sizes of the groups of an integer part of [len] characters, as the
    specification describes them: a leading group of 1 to 3 characters, then
    [floor((len-1)/3)] groups of 3. *)
Definition groupSizes (len : nat) : list nat :=
  match len with
  | O => []
  | Datatypes.S m => Datatypes.S (m mod 3)%nat :: repeat 3%nat (m / 3)%nat
  end.

(** Grouping read from the left: a character is followed by a separator
    when a positive multiple of 3 characters remains to its right. *)
Fixpoint groupFromRight (groupSeparator : str) (s : str) : str :=
  match s with
  | [] => []
  | c :: t =>
      c :: (if (Nat.eqb (length t mod 3) 0 && negb (Nat.eqb (length t) 0))%bool
            then groupSeparator ++ groupFromRight groupSeparator t
            else groupFromRight groupSeparator t)
  end.

(** The characters the specification says the default pattern keeps. *)
Definition isDigit (c : code_unit) : bool := (N.leb 48 c && N.leb c 57)%bool.
Definition isPeriod (c : code_unit) : bool := N.eqb c 46.
Definition digitOrPeriod (c : code_unit) : bool := (isDigit c || isPeriod c)%bool.

(** The characters the default pattern does keep. *)
Definition keptByDefault (c : code_unit) : bool :=
  negb (class_matches defaultPattern c).

(** The loop invariant: [units] once the characters of [t], the right end
    of the integer part, are placed; [more] tells that characters remain to
    the left of [t]. *)
Definition unitsAfter (groupSeparator : str) (t : str) (more : bool) : str :=
  if (Nat.eqb (length t mod 3) 0 && negb (Nat.eqb (length t) 0) && more)%bool
  then groupSeparator ++ groupFromRight groupSeparator t
  else groupFromRight groupSeparator t.

(** ** Concrete runs *)

Example scenario_A :
  currencyFormat (lit "123456.78") (lit "$ ") (lit ",") (lit ".")
  = lit "$ 123,456.78".
Proof. reflexivity. Qed.

Example scenario_B :
  currencyFormat (lit "7") (lit "$") (lit ",") (lit ".") = lit "$7".
Proof. reflexivity. Qed.

Example unformat_doc_example :
  currencyUnformat (lit "Total: $ 12,345,678.90 (annual)") None
  = lit "12345678.90".
Proof. reflexivity. Qed.

(** ** Facts about the string built-ins *)

Section StringFacts.

Lemma str_eqb_eq (a b : str) : str_eqb a b = true <-> a = b.
Proof.
  revert b; induction a as [|x a IH]; intros [|y b]; simpl;
    try (split; [discriminate | congruence]); [tauto|].
  rewrite andb_true_iff, N.eqb_eq, IH.
  split; [intros [-> ->]; reflexivity | intros E; inversion E; auto].
Qed.

Lemma str_eqb_refl (a : str) : str_eqb a a = true.
Proof. apply str_eqb_eq; reflexivity. Qed.

Lemma str_eqb_nil (a : str) : str_eqb a [] = false <-> a <> [].
Proof.
  destruct a; simpl; split; congruence.
Qed.

Lemma match_at_occurs (S searchStr : str) (k : nat) :
  match_at S searchStr k = true <-> occurs_at searchStr S k.
Proof.
  unfold match_at, occurs_at.
  rewrite andb_true_iff, Nat.leb_le, str_eqb_eq. split.
  - intros [Hle Heq].
    exists (firstn k S), (skipn (length searchStr) (skipn k S)). split.
    + rewrite <- Heq at 1. now rewrite !firstn_skipn.
    + rewrite length_firstn. lia.
  - intros (pre & post & -> & <-). split.
    + rewrite !length_app. lia.
    + rewrite skipn_app, skipn_all, Nat.sub_diag. simpl.
      rewrite firstn_app, firstn_all, Nat.sub_diag. simpl.
      apply app_nil_r.
Qed.

Lemma match_at_empty (S : str) : match_at S [] (length S) = true.
Proof.
  apply match_at_occurs. exists S, []. now rewrite app_nil_r.
Qed.

(** What [lastIndexOf_from] returns: [-1] when no position up to [start]
    matches, and otherwise the greatest matching position. *)
Lemma lastIndexOf_from_none (S searchStr : str) (start : nat) :
  lastIndexOf_from S searchStr start = -1
  <-> forall k, (k <= start)%nat -> match_at S searchStr k = false.
Proof.
  induction start as [|n IH]; simpl.
  - destruct (match_at S searchStr 0) eqn:E; split; intros H.
    + discriminate H.
    + specialize (H 0%nat (le_n _)). congruence.
    + intros k Hk. replace k with 0%nat by lia. exact E.
    + reflexivity.
  - destruct (match_at S searchStr (Datatypes.S n)) eqn:E.
    + split; [lia|]. intros H. specialize (H _ (le_n _)). congruence.
    + rewrite IH. split; intros H k Hk.
      * destruct (Nat.eq_dec k (Datatypes.S n)) as [->|]; [exact E|].
        apply H; lia.
      * apply H; lia.
Qed.

Lemma lastIndexOf_from_some (S searchStr : str) (start : nat) (p : Z) :
  lastIndexOf_from S searchStr start = p -> p <> -1 ->
  exists k, p = Z.of_nat k /\ (k <= start)%nat
            /\ match_at S searchStr k = true
            /\ forall j, (k < j <= start)%nat -> match_at S searchStr j = false.
Proof.
  induction start as [|n IH]; simpl.
  - destruct (match_at S searchStr 0) eqn:E; intros <- Hp; [|congruence].
    exists 0%nat. repeat split; auto. intros; lia.
  - destruct (match_at S searchStr (Datatypes.S n)) eqn:E.
    + intros <- _. exists (Datatypes.S n). repeat split; auto. intros; lia.
    + intros H Hp. destruct (IH H Hp) as (k & -> & Hk & Hm & Hlast).
      exists k. repeat split; auto.
      intros j Hj. destruct (Nat.eq_dec j (Datatypes.S n)) as [->|]; [exact E|].
      apply Hlast; lia.
Qed.

Lemma lastIndexOf_empty (S : str) : lastIndexOf S [] = Z.of_nat (length S).
Proof.
  unfold lastIndexOf. generalize (match_at_empty S).
  destruct (length S); cbn [lastIndexOf_from]; intros ->; reflexivity.
Qed.

Lemma lastIndexOf_nil (searchStr : str) :
  lastIndexOf [] searchStr = -1 \/ lastIndexOf [] searchStr = 0.
Proof.
  unfold lastIndexOf; simpl. destruct (match_at [] searchStr 0); auto.
Qed.

Lemma slice_from (S : str) (p : nat) :
  (p <= length S)%nat -> slice S (Z.of_nat p) None = skipn p S.
Proof.
  intros Hp. unfold slice.
  replace (Z.of_nat p <? 0) with false by (symmetry; apply Z.ltb_ge; lia).
  replace (Z.of_nat (length S) <? 0) with false by (symmetry; apply Z.ltb_ge; lia).
  rewrite Z.min_id, (Z.min_l (Z.of_nat p)) by lia.
  rewrite Z.max_l, Nat2Z.id by lia.
  apply firstn_all2. rewrite length_skipn. lia.
Qed.

Lemma slice_upto (S : str) (p : nat) :
  (p <= length S)%nat -> slice S 0 (Some (Z.of_nat p)) = firstn p S.
Proof.
  intros Hp. unfold slice. cbv zeta.
  replace (0 <? 0) with false by reflexivity.
  replace (Z.of_nat p <? 0) with false by (symmetry; apply Z.ltb_ge; lia).
  rewrite (Z.min_l 0), (Z.min_l (Z.of_nat p)) by lia.
  rewrite Z.sub_0_r, Z.max_l, Nat2Z.id by lia. reflexivity.
Qed.

(** The key of index [i] read back as a number, and with a 1 appended. *)
Lemma ToNumber_key (i : nat) : ToNumber (Nat.to_uint i) = Z.of_nat i.
Proof. unfold ToNumber. now rewrite DecimalNat.Unsigned.of_to. Qed.

Lemma rev_app_digit_1 (d : Decimal.uint) :
  Decimal.rev (Decimal.app d (Decimal.D1 Decimal.Nil))
  = Decimal.D1 (Decimal.rev d).
Proof.
  apply DecimalFacts.to_list_inj.
  rewrite DecimalFacts.rev_spec, DecimalFacts.app_spec, rev_app_distr.
  simpl. now rewrite DecimalFacts.rev_spec.
Qed.

Lemma ToNumber_key_plus_1 (i : nat) :
  ToNumber (string_plus_number (Nat.to_uint i) 1) = 10 * Z.of_nat i + 1.
Proof.
  unfold ToNumber, string_plus_number.
  change (Nat.to_uint 1) with (Decimal.D1 Decimal.Nil).
  rewrite DecimalNat.Unsigned.of_uint_alt, rev_app_digit_1.
  simpl DecimalNat.Unsigned.of_lu.
  rewrite <- DecimalNat.Unsigned.of_uint_alt, DecimalNat.Unsigned.of_to. lia.
Qed.

Lemma get_key (a : list str) (i : nat) :
  get a (Nat.to_uint i) = nth i a (lit "undefined").
Proof. unfold get. now rewrite DecimalNat.Unsigned.of_to. Qed.

(** The loop's test in arithmetic on the index: appending a 1 to the key
    multiplies by ten and adds one, which is [i + 1] modulo 3. *)
Lemma separatorDue_index (digitsLength : Z) (i : nat) :
  separatorDue digitsLength (Nat.to_uint i)
  = ((Z.of_nat i + 1) mod 3 =? 0) && (Z.of_nat i <? digitsLength - 1).
Proof.
  unfold separatorDue. rewrite ToNumber_key_plus_1, ToNumber_key.
  f_equal. f_equal.
  replace (10 * Z.of_nat i + 1) with (Z.of_nat i + 1 + 3 * Z.of_nat i * 3) by lia.
  now rewrite Z.mod_add by lia.
Qed.

End StringFacts.


(** ** The split into integer part and decimals *)

Section Split.

Variables this decimalSeparator : str.

Lemma concat_split_empty (s : str) : concat (split_empty s) = s.
Proof. induction s as [|c s IH]; simpl; congruence. Qed.

Lemma occurs_at_bound (k : nat) :
  occurs_at decimalSeparator this k -> (k <= length this)%nat.
Proof.
  intros (pre & post & -> & <-). rewrite length_app. lia.
Qed.

(** Either the separator occurs nowhere and nothing is split off, or the
    split is at its last occurrence. *)
Lemma split_cases :
  (decimalPosition this decimalSeparator = -1
   /\ (forall k, ~ occurs_at decimalSeparator this k)
   /\ decimals this decimalSeparator = []
   /\ digits this decimalSeparator = reverse (split_empty this))
  \/
  (exists p, decimalPosition this decimalSeparator = Z.of_nat p
   /\ (p <= length this)%nat
   /\ occurs_at decimalSeparator this p
   /\ (forall j, (p < j)%nat -> ~ occurs_at decimalSeparator this j)
   /\ decimals this decimalSeparator = skipn p this
   /\ digits this decimalSeparator = reverse (split_empty (firstn p this))).
Proof.
  unfold decimals, digits, decimalPosition, lastIndexOf.
  destruct (Z.eq_dec (lastIndexOf_from this decimalSeparator (length this)) (-1))
    as [E|N].
  - left. rewrite E. repeat split; auto.
    intros k Hk. pose proof (occurs_at_bound k Hk) as Hb.
    apply match_at_occurs in Hk.
    apply lastIndexOf_from_none with (k := k) in E; [congruence | exact Hb].
  - right.
    destruct (lastIndexOf_from_some _ _ _ _ eq_refl N) as (p & E & Hp & Hm & Hl).
    exists p. rewrite E.
    replace (Z.of_nat p >? -1) with true by (symmetry; apply Z.gtb_lt; lia).
    rewrite slice_from, slice_upto by exact Hp.
    repeat split; auto.
    + now apply match_at_occurs.
    + intros j Hj Hocc. pose proof (occurs_at_bound j Hocc) as Hb.
      apply match_at_occurs in Hocc. rewrite Hl in Hocc by lia. discriminate.
Qed.

Lemma lastIndexOf_absent :
  lastIndexOf this decimalSeparator = -1 ->
  forall k, ~ occurs_at decimalSeparator this k.
Proof.
  intros E k Hk. pose proof (occurs_at_bound k Hk) as Hb.
  apply match_at_occurs in Hk. unfold lastIndexOf in E.
  apply lastIndexOf_from_none with (k := k) in E; [congruence | exact Hb].
Qed.

Lemma digits_integerPart :
  digits this decimalSeparator
  = reverse (split_empty (integerPart this decimalSeparator)).
Proof.
  unfold integerPart.
  destruct split_cases as [(_ & _ & _ & ->) | (p & _ & _ & _ & _ & _ & ->)];
    unfold reverse; now rewrite rev_involutive, concat_split_empty.
Qed.

Lemma integerPart_decimals :
  integerPart this decimalSeparator ++ decimals this decimalSeparator = this.
Proof.
  unfold integerPart.
  destruct split_cases as [(_ & _ & -> & ->) | (p & _ & _ & _ & _ & -> & ->)];
    unfold reverse; rewrite rev_involutive, concat_split_empty.
  - apply app_nil_r.
  - apply firstn_skipn.
Qed.

Lemma length_digits :
  length (digits this decimalSeparator)
  = length (integerPart this decimalSeparator).
Proof.
  rewrite digits_integerPart. unfold reverse, split_empty.
  now rewrite length_rev, length_map.
Qed.

End Split.

(** ** The grouping loop *)

Section Loop.

Variable groupSeparator : str.

Lemma nth_reversed_digits (a t : str) (c : code_unit) (d : str) :
  nth (length t) (reverse (split_empty (a ++ c :: t))) d = [c].
Proof.
  unfold reverse, split_empty.
  rewrite map_app, rev_app_distr. simpl. rewrite <- app_assoc. simpl.
  rewrite app_nth2; rewrite length_rev, length_map; [|lia].
  now rewrite Nat.sub_diag.
Qed.

Lemma succ_mod3_eqb (n : nat) :
  ((Z.of_nat n + 1) mod 3 =? 0) = Nat.eqb (Datatypes.S n mod 3) 0.
Proof.
  replace (Z.of_nat n + 1) with (Z.of_nat (Datatypes.S n)) by lia.
  change 3 with (Z.of_nat 3). rewrite <- Nat2Z.inj_mod.
  destruct (Nat.eqb_spec (Datatypes.S n mod 3) 0) as [E|E].
  - rewrite E. reflexivity.
  - apply Z.eqb_neq. lia.
Qed.

Lemma groupFromRight_cons (c : code_unit) (t : str) :
  groupFromRight groupSeparator (c :: t) = c :: unitsAfter groupSeparator t true.
Proof.
  unfold unitsAfter. simpl. now rewrite andb_true_r.
Qed.

(** One turn of the loop takes the invariant from [t] to [c :: t]. *)
Lemma placeDigit_step (rh t : str) (c : code_unit) :
  let ds := reverse (split_empty (rev rh ++ c :: t)) in
  placeDigit ds (Z.of_nat (length ds)) groupSeparator
             (unitsAfter groupSeparator t true) (Nat.to_uint (length t))
  = unitsAfter groupSeparator (c :: t) (negb (Nat.eqb (length rh) 0)).
Proof.
  intros ds. unfold placeDigit.
  rewrite get_key, separatorDue_index, succ_mod3_eqb. unfold ds.
  rewrite nth_reversed_digits.
  unfold reverse, split_empty.
  rewrite length_rev, length_map, length_app, length_rev. simpl length.
  change ([c] ++ unitsAfter groupSeparator t true)
    with (c :: unitsAfter groupSeparator t true).
  rewrite <- groupFromRight_cons.
  unfold unitsAfter. simpl length.
  replace (Z.of_nat (length t) <? Z.of_nat (length rh + Datatypes.S (length t)) - 1)
    with (negb (Nat.eqb (length rh) 0)).
  - destruct (Nat.eqb (Datatypes.S (length t) mod 3) 0); reflexivity.
  - destruct (Nat.eqb_spec (length rh) 0) as [E|E]; simpl; symmetry.
    + apply Z.ltb_ge. lia.
    + apply Z.ltb_lt. lia.
Qed.

Lemma loop_invariant (rh : str) : forall t : str,
  let ds := reverse (split_empty (rev rh ++ t)) in
  fold_left (placeDigit ds (Z.of_nat (length ds)) groupSeparator)
            (map Nat.to_uint (seq (length t) (length rh)))
            (unitsAfter groupSeparator t (negb (Nat.eqb (length rh) 0)))
  = groupFromRight groupSeparator (rev rh ++ t).
Proof.
  induction rh as [|c rh IH]; intros t ds.
  - simpl. unfold unitsAfter. now rewrite andb_false_r.
  - unfold ds. simpl rev. rewrite <- app_assoc. simpl app.
    simpl length. simpl seq. simpl map. simpl fold_left.
    rewrite placeDigit_step.
    apply (IH (c :: t)).
Qed.

(** The loop computes the grouping read from the left. *)
Lemma units_groupFromRight (s : str) :
  units (reverse (split_empty s)) groupSeparator
  = groupFromRight groupSeparator s.
Proof.
  unfold units, keys.
  assert (L : length (reverse (split_empty s)) = length (rev s)).
  { unfold reverse, split_empty. now rewrite !length_rev, length_map. }
  rewrite L.
  pose proof (loop_invariant (rev s) []) as H. cbv zeta in H.
  rewrite rev_involutive, app_nil_r in H. simpl length in H.
  rewrite <- H, L. reflexivity.
Qed.

End Loop.

(** ** Groups of three from the right *)

Section Groups.

Variable groupSeparator : str.

Lemma succ_divmod3 (m : nat) :
  ((m mod 3 = 2 /\ Datatypes.S m mod 3 = 0 /\ Datatypes.S m / 3 = Datatypes.S (m / 3))
   \/ (m mod 3 < 2 /\ Datatypes.S m mod 3 = Datatypes.S (m mod 3)
       /\ Datatypes.S m / 3 = m / 3))%nat.
Proof.
  pose proof (Nat.div_mod_eq m 3) as E.
  pose proof (Nat.mod_upper_bound m 3 ltac:(lia)) as B.
  destruct (Nat.eq_dec (m mod 3) 2) as [H|H]; [left|right]; split; try lia.
  - split; [symmetry; apply Nat.mod_unique with (q := Datatypes.S (m / 3))
           | symmetry; apply Nat.div_unique with (r := 0%nat)]; lia.
  - split; [symmetry; apply Nat.mod_unique with (q := (m / 3)%nat)
           | symmetry; apply Nat.div_unique with (r := Datatypes.S (m mod 3))]; lia.
Qed.

Lemma groupSizes_sum (len : nat) : list_sum (groupSizes len) = len.
Proof.
  destruct len as [|m]; [reflexivity|]. cbn [groupSizes list_sum fold_right].
  assert (R : forall q, list_sum (repeat 3%nat q) = (3 * q)%nat).
  { induction q as [|q IH]; simpl in *; lia. }
  rewrite R. pose proof (Nat.div_mod_eq m 3). lia.
Qed.

Lemma cutGroups_concat (sizes : list nat) : forall s : str,
  list_sum sizes = length s -> concat (cutGroups sizes s) = s.
Proof.
  induction sizes as [|n sizes IH]; intros s H; simpl in *.
  - destruct s; [reflexivity | discriminate].
  - rewrite IH; [apply firstn_skipn | rewrite length_skipn; lia].
Qed.

Lemma cutGroups_lengths (sizes : list nat) : forall s : str,
  list_sum sizes = length s -> map (@length code_unit) (cutGroups sizes s) = sizes.
Proof.
  induction sizes as [|n sizes IH]; intros s H; simpl in *; [reflexivity|].
  rewrite IH by (rewrite length_skipn; lia).
  rewrite length_firstn. f_equal. lia.
Qed.

(** The grouping read from the left is the groups of the specification,
    joined by the separator. *)
Lemma groupFromRight_join (s : str) :
  groupFromRight groupSeparator s
  = joinGroups groupSeparator (cutGroups (groupSizes (length s)) s).
Proof.
  induction s as [|c t IH]; [reflexivity|].
  cbn [groupFromRight]. rewrite IH. clear IH.
  destruct t as [|c' t']; [reflexivity|].
  set (t := c' :: t'). change (length (c :: t)) with (Datatypes.S (length t)).
  change (length t) with (Datatypes.S (length t')).
  cbn [groupSizes cutGroups joinGroups].
  destruct (succ_divmod3 (length t')) as [(H2 & H0 & Hq) | (H2 & Hs & Hq)].
  - rewrite H0, Hq, H2.
    cbn [Nat.eqb andb negb repeat cutGroups flat_map firstn skipn app].
    rewrite <- app_assoc. reflexivity.
  - rewrite Hs, Hq.
    cbn [Nat.eqb andb negb firstn skipn app]. reflexivity.
Qed.

Lemma repeat_lengths (n : nat) (l : list str) : forall q : nat,
  map (@length code_unit) l = repeat n q ->
  Forall (fun g => length g = n) l /\ length l = q.
Proof.
  induction l as [|g l IH]; intros [|q] H; simpl in H; try discriminate.
  - split; [constructor | reflexivity].
  - injection H as Hg Hl. destruct (IH q Hl) as [HF HL].
    split; [constructor; auto | simpl; congruence].
Qed.

(** A non-empty string is cut into a leading group of 1 to 3 characters and
    groups of exactly 3. *)
Lemma groups_shape (s : str) (m : nat) :
  length s = Datatypes.S m ->
  exists lead rest,
    cutGroups (groupSizes (length s)) s = lead :: rest
    /\ s = lead ++ concat rest
    /\ length lead = Datatypes.S (m mod 3)
    /\ Forall (fun g => length g = 3%nat) rest
    /\ length rest = (m / 3)%nat.
Proof.
  intros L.
  pose proof (cutGroups_concat _ s (groupSizes_sum (length s))) as Hc.
  pose proof (cutGroups_lengths _ s (groupSizes_sum (length s))) as Hl.
  rewrite L in *. cbn [groupSizes cutGroups] in *.
  eexists _, _. split; [reflexivity|].
  cbn [concat map] in Hc, Hl. injection Hl as Hlead Hrest.
  destruct (repeat_lengths _ _ _ Hrest) as [HF HL].
  repeat split; auto.
Qed.

Lemma joinGroups_lead (lead : str) (rest : list str) :
  joinGroups groupSeparator (lead :: rest)
  = lead ++ flat_map (fun g => groupSeparator ++ g) rest.
Proof. reflexivity. Qed.

(** A character the filter drops from the separator is dropped from the
    grouped string altogether. *)
Lemma filter_groupFromRight (keep : code_unit -> bool) (s : str) :
  filter keep groupSeparator = [] ->
  filter keep (groupFromRight groupSeparator s) = filter keep s.
Proof.
  intros Hsep. induction s as [|c t IH]; [reflexivity|].
  cbn [groupFromRight].
  destruct (Nat.eqb (length t mod 3) 0 && negb (Nat.eqb (length t) 0))%bool;
    cbn [filter]; rewrite ?filter_app, ?Hsep, IH; reflexivity.
Qed.

End Groups.

(** ** How many separators the loop inserts *)

Section Count.

Lemma count_upto (n k : nat) :
  (1 <= n)%nat -> (k <= n)%nat ->
  length (filter (separatorDue (Z.of_nat n)) (map Nat.to_uint (seq 0 k)))
  = (Nat.min k (n - 1) / 3)%nat.
Proof.
  intros Hn. unfold key. induction k as [|k IH]; intros Hk; [reflexivity|].
  rewrite seq_S, map_app, filter_app, length_app.
  rewrite IH by lia. cbn [Nat.add map filter].
  rewrite separatorDue_index, succ_mod3_eqb.
  destruct (Nat.eq_dec (Datatypes.S k) n) as [E|E].
  - replace (Z.of_nat k <? Z.of_nat n - 1) with false
      by (symmetry; apply Z.ltb_ge; lia).
    rewrite andb_false_r. simpl length.
    rewrite !Nat.min_r by lia. subst n. simpl. lia.
  - replace (Z.of_nat k <? Z.of_nat n - 1) with true
      by (symmetry; apply Z.ltb_lt; lia).
    rewrite andb_true_r, !Nat.min_l by lia.
    destruct (succ_divmod3 k) as [(_ & H0 & Hq) | (_ & Hs & Hq)].
    + rewrite H0, Hq. simpl. lia.
    + rewrite Hs, Hq. simpl. lia.
Qed.

Lemma separatorsInserted_count (ds : list str) :
  separatorsInserted ds = ((length ds - 1) / 3)%nat.
Proof.
  unfold separatorsInserted, keys.
  destruct (length ds) as [|m] eqn:E; [reflexivity|].
  rewrite count_upto by lia. f_equal. lia.
Qed.

End Count.

(** ** The two functions in closed form *)

Section ClosedForms.

(** With a group separator, the output is the symbol, the integer part
    grouped from the right, and the decimals. *)
Lemma currencyFormat_grouped (this symbol groupSeparator decimalSeparator : str) :
  groupSeparator <> [] ->
  currencyFormat this symbol groupSeparator decimalSeparator
  = symbol
      ++ groupFromRight groupSeparator (integerPart this decimalSeparator)
      ++ decimals this decimalSeparator.
Proof.
  intros Hsep. unfold currencyFormat.
  apply str_eqb_nil in Hsep. rewrite Hsep. cbn [negb].
  now rewrite digits_integerPart, units_groupFromRight.
Qed.

Lemma integerPart_absent (this decimalSeparator : str) :
  (forall k, ~ occurs_at decimalSeparator this k) ->
  decimals this decimalSeparator = []
  /\ digits this decimalSeparator = reverse (split_empty this)
  /\ integerPart this decimalSeparator = this.
Proof.
  intros Habs. unfold integerPart.
  destruct (split_cases this decimalSeparator)
    as [(_ & _ & -> & ->) | (p & _ & _ & Hocc & _)].
  - unfold reverse. now rewrite rev_involutive, concat_split_empty.
  - destruct (Habs p Hocc).
Qed.

Lemma integerPart_empty_separator (this : str) :
  decimals this [] = []
  /\ digits this [] = reverse (split_empty this)
  /\ integerPart this [] = this.
Proof.
  unfold integerPart, decimals, digits, decimalPosition.
  rewrite lastIndexOf_empty.
  replace (Z.of_nat (length this) >? -1) with true
    by (symmetry; apply Z.gtb_lt; lia).
  rewrite slice_from, slice_upto, skipn_all, firstn_all by lia.
  unfold reverse. now rewrite rev_involutive, concat_split_empty.
Qed.

(** Replacing every match by the empty string keeps exactly the code
    units outside the class. *)
Lemma replace_scan_empty (r : regex) (S : str) : forall in_run : bool,
  replace_scan r [] in_run S = filter (fun c => negb (class_matches r c)) S.
Proof.
  induction S as [|c S IH]; intros in_run; [reflexivity|].
  cbn [replace_scan filter].
  destruct (class_matches r c); cbn [negb].
  - rewrite IH. now destruct in_run.
  - now rewrite IH.
Qed.

Lemma currencyUnformat_default (this : str) :
  currencyUnformat this None = filter keptByDefault this.
Proof.
  unfold currencyUnformat, replace. apply replace_scan_empty.
Qed.

Lemma keptByDefault_spec (c : code_unit) :
  keptByDefault c
  = (isDigit c || N.eqb c 124 || N.eqb c 94 || isPeriod c)%bool.
Proof.
  unfold keptByDefault, class_matches, defaultPattern, isDigit, isPeriod.
  cbn [negated atoms existsb atom_matches].
  destruct (N.leb 48 c && N.leb c 57)%bool, (N.eqb c 124), (N.eqb c 94),
    (N.eqb c 46); reflexivity.
Qed.

Lemma digitOrPeriod_kept (c : code_unit) :
  digitOrPeriod c = true -> keptByDefault c = true.
Proof.
  rewrite keptByDefault_spec. unfold digitOrPeriod.
  destruct (isDigit c), (isPeriod c), (N.eqb c 124), (N.eqb c 94);
    simpl; congruence.
Qed.

Lemma filter_all (A : Type) (f : A -> bool) (l : list A) :
  Forall (fun x => f x = true) l -> filter f l = l.
Proof.
  induction 1 as [|x l Hx _ IH]; simpl; [reflexivity|].
  now rewrite Hx, IH.
Qed.

Lemma filter_idempotent (A : Type) (f : A -> bool) (l : list A) :
  filter f (filter f l) = filter f l.
Proof.
  apply filter_all, Forall_forall. intros x Hx.
  now apply filter_In in Hx.
Qed.

End ClosedForms.

(** ** Properties of [currencyFormat] and [currencyUnformat] *)

(** C5. With the empty group separator, [currencyFormat] returns the symbol
    followed by the input as it is, for every input, symbol and decimal
    separator: the grouping branch is not taken and the input's decimal
    marker is untouched. *)
Theorem C5_empty_group_separator_bypass (this symbol decimalSeparator : str) :
  currencyFormat this symbol [] decimalSeparator = symbol ++ this.
Proof. reflexivity. Qed.

(** C8. On the empty input [currencyFormat] returns the symbol, whatever the
    separators: with a group separator the reversed digit list is empty, so
    the loop places nothing and no decimals follow; without one the result
    is the symbol followed by the empty string. *)
Theorem C8_empty_input (symbol groupSeparator decimalSeparator : str) :
  digits [] decimalSeparator = []
  /\ units (digits [] decimalSeparator) groupSeparator = []
  /\ decimals [] decimalSeparator = []
  /\ currencyFormat [] symbol groupSeparator decimalSeparator = symbol.
Proof.
  assert (D : digits [] decimalSeparator = [] /\ decimals [] decimalSeparator = []).
  { pose proof (integerPart_decimals [] decimalSeparator) as H.
    apply app_eq_nil in H. destruct H as [Hi Hd]. split; [|exact Hd].
    pose proof (length_digits [] decimalSeparator) as L.
    rewrite Hi in L. now apply length_zero_iff_nil. }
  destruct D as [Hdig Hdec]. rewrite Hdig, Hdec.
  repeat split.
  unfold currencyFormat. rewrite Hdig, Hdec.
  destruct (negb (str_eqb groupSeparator [])); cbn; apply app_nil_r.
Qed.

(** C10. [currencyUnformat] with the default pattern is idempotent: what
    survives the first pass lies outside the class the pattern strips, so
    a second pass removes nothing. *)
Theorem C10_unformat_idempotent (s : str) :
  currencyUnformat (currencyUnformat s None) None = currencyUnformat s None.
Proof.
  rewrite !currencyUnformat_default. apply filter_idempotent.
Qed.

(** C3. The default pattern does not strip every character outside
    [[0-9.]]: the vertical bar and the caret stand inside its brackets and
    are kept, as on the input ["a|b^c"], which is returned as ["|^"] where
    keeping digits and periods only gives the empty string.  In general the
    result keeps, in order, the digits, the periods, the bars and the
    carets. *)
Theorem C3_default_pattern_keeps_bar_and_caret :
  currencyUnformat (lit "a|b^c") None = lit "|^"
  /\ filter digitOrPeriod (lit "a|b^c") = []
  /\ forall s, currencyUnformat s None
               = filter (fun c => (isDigit c || N.eqb c 124 || N.eqb c 94
                                   || isPeriod c)%bool) s.
Proof.
  repeat split. intros s. rewrite currencyUnformat_default.
  apply filter_ext. exact keptByDefault_spec.
Qed.

(** C6. When the decimal separator does not occur in the input (group
    separator not empty), the decimals are empty and the integer part is the
    whole input, which is grouped as a whole; so
    [currencyFormat] of ["1234567"] with ["$"], [","], ["."] is
    ["$1,234,567"]. *)
Theorem C6_no_decimal_separator (this symbol groupSeparator decimalSeparator : str) :
  groupSeparator <> [] ->
  (forall k, ~ occurs_at decimalSeparator this k) ->
  decimals this decimalSeparator = []
  /\ digits this decimalSeparator = reverse (split_empty this)
  /\ currencyFormat this symbol groupSeparator decimalSeparator
     = symbol ++ units (reverse (split_empty this)) groupSeparator
  /\ currencyFormat this symbol groupSeparator decimalSeparator
     = symbol ++ groupFromRight groupSeparator this
  /\ currencyFormat (lit "1234567") (lit "$") (lit ",") (lit ".")
     = lit "$1,234,567".
Proof.
  intros Hsep Habs.
  destruct (integerPart_absent this decimalSeparator Habs) as (Hdec & Hdig & Hint).
  repeat split; auto.
  - unfold currencyFormat. apply str_eqb_nil in Hsep.
    now rewrite Hsep, Hdig, Hdec, app_nil_r.
  - now rewrite currencyFormat_grouped, Hint, Hdec, app_nil_r.
Qed.

Lemma C6_no_decimal_separator_witness :
  lit "," <> []
  /\ (forall k, ~ occurs_at (lit ".") (lit "1234567") k)
  /\ currencyFormat (lit "1234567") (lit "$") (lit ",") (lit ".")
     = lit "$" ++ groupFromRight (lit ",") (lit "1234567").
Proof.
  assert (Hs : lit "," <> []) by discriminate.
  assert (Ha : forall k, ~ occurs_at (lit ".") (lit "1234567") k)
    by (apply lastIndexOf_absent; reflexivity).
  split; [exact Hs | split; [exact Ha |]].
  apply (C6_no_decimal_separator (lit "1234567") (lit "$") (lit ",") (lit ".")
           Hs Ha).
Defined.

(** C9. With the empty decimal separator (group separator not empty),
    [lastIndexOf] finds the split at the end of the input, so the decimals
    are empty, the whole input is the integer part, and the output is the
    one obtained with any decimal separator that does not occur in the
    input. *)
Theorem C9_empty_decimal_separator (this symbol groupSeparator absent : str) :
  groupSeparator <> [] ->
  (forall k, ~ occurs_at absent this k) ->
  decimalPosition this [] = Z.of_nat (length this)
  /\ decimals this [] = []
  /\ digits this [] = reverse (split_empty this)
  /\ currencyFormat this symbol groupSeparator []
     = currencyFormat this symbol groupSeparator absent.
Proof.
  intros Hsep Habs.
  destruct (integerPart_empty_separator this) as (Hdec & Hdig & _).
  destruct (integerPart_absent this absent Habs) as (Hdec' & Hdig' & _).
  repeat split; auto.
  - apply lastIndexOf_empty.
  - unfold currencyFormat. now rewrite Hdec, Hdig, Hdec', Hdig'.
Qed.

Lemma C9_empty_decimal_separator_witness :
  lit "," <> []
  /\ (forall k, ~ occurs_at (lit ".") (lit "1234567") k)
  /\ currencyFormat (lit "1234567") (lit "$") (lit ",") []
     = currencyFormat (lit "1234567") (lit "$") (lit ",") (lit ".").
Proof.
  assert (Hs : lit "," <> []) by discriminate.
  assert (Ha : forall k, ~ occurs_at (lit ".") (lit "1234567") k)
    by (apply lastIndexOf_absent; reflexivity).
  split; [exact Hs | split; [exact Ha |]].
  apply (C9_empty_decimal_separator (lit "1234567") (lit "$") (lit ",") (lit ".")
           Hs Ha).
Defined.

(** C2. When the input contains the decimal separator (both separators not
    empty), the input from the last occurrence of the decimal separator to
    its end is the final segment of the output, unchanged, right after the
    grouped integer part. *)
Theorem C2_fraction_verbatim (this symbol groupSeparator decimalSeparator : str) :
  groupSeparator <> [] ->
  decimalSeparator <> [] ->
  (exists k, occurs_at decimalSeparator this k) ->
  exists p,
    occurs_at decimalSeparator this p
    /\ (forall j, (p < j)%nat -> ~ occurs_at decimalSeparator this j)
    /\ integerPart this decimalSeparator = firstn p this
    /\ decimals this decimalSeparator = skipn p this
    /\ currencyFormat this symbol groupSeparator decimalSeparator
       = symbol ++ groupFromRight groupSeparator (firstn p this)
                ++ skipn p this.
Proof.
  intros Hsep _ [k Hk].
  destruct (split_cases this decimalSeparator)
    as [(_ & Habs & _) | (p & _ & _ & Hocc & Hlast & Hdec & Hdig)].
  - destruct (Habs k Hk).
  - exists p.
    assert (Hint : integerPart this decimalSeparator = firstn p this).
    { unfold integerPart. rewrite Hdig. unfold reverse.
      now rewrite rev_involutive, concat_split_empty. }
    repeat split; auto.
    now rewrite currencyFormat_grouped, Hint, Hdec.
Qed.

Lemma C2_fraction_verbatim_witness :
  lit "," <> [] /\ lit "." <> []
  /\ (exists k, occurs_at (lit ".") (lit "123456.78") k)
  /\ exists p,
       occurs_at (lit ".") (lit "123456.78") p
       /\ (forall j, (p < j)%nat -> ~ occurs_at (lit ".") (lit "123456.78") j)
       /\ integerPart (lit "123456.78") (lit ".") = firstn p (lit "123456.78")
       /\ decimals (lit "123456.78") (lit ".") = skipn p (lit "123456.78")
       /\ currencyFormat (lit "123456.78") (lit "$ ") (lit ",") (lit ".")
          = lit "$ " ++ groupFromRight (lit ",") (firstn p (lit "123456.78"))
                     ++ skipn p (lit "123456.78").
Proof.
  assert (Hs : lit "," <> []) by discriminate.
  assert (Hd : lit "." <> []) by discriminate.
  assert (Ho : exists k, occurs_at (lit ".") (lit "123456.78") k)
    by (exists 6%nat; apply match_at_occurs; reflexivity).
  split; [exact Hs | split; [exact Hd | split; [exact Ho |]]].
  exact (C2_fraction_verbatim (lit "123456.78") (lit "$ ") (lit ",") (lit ".")
           Hs Hd Ho).
Defined.

(** The count [floor((len-1)/3)] of C1 does not cover an empty integer
    part: for the input [".50"] no separator is inserted (the output is
    ["$.50"]), while [floor((0-1)/3)] is [-1]. *)
Lemma C1_counterexample_empty_integer_part :
  length (integerPart (lit ".50") (lit ".")) = 0%nat
  /\ currencyFormat (lit ".50") (lit "$") (lit ",") (lit ".") = lit "$.50"
  /\ Z.of_nat (separatorsInserted (digits (lit ".50") (lit ".")))
     <> (Z.of_nat (length (integerPart (lit ".50") (lit "."))) - 1) / 3.
Proof.
  split; [reflexivity | split; [reflexivity |]].
  vm_compute. discriminate.
Qed.

(** C1, amended. With a group separator that is not empty: an empty integer
    part gets no separator; an integer part of [len >= 1] characters gets
    exactly [floor((len-1)/3)] separators, one before each of the groups of
    exactly 3 characters counted from its right end, and none before its
    leading group of 1, 2 or 3 characters. *)
Theorem C1_separators_between_groups_of_three
        (this symbol groupSeparator decimalSeparator : str) :
  groupSeparator <> [] ->
  let len := length (integerPart this decimalSeparator) in
  (len = 0%nat ->
   separatorsInserted (digits this decimalSeparator) = 0%nat
   /\ currencyFormat this symbol groupSeparator decimalSeparator
      = symbol ++ decimals this decimalSeparator)
  /\
  ((1 <= len)%nat ->
   Z.of_nat (separatorsInserted (digits this decimalSeparator))
   = (Z.of_nat len - 1) / 3
   /\ exists lead rest,
        integerPart this decimalSeparator = lead ++ concat rest
        /\ (1 <= length lead <= 3)%nat
        /\ Forall (fun g => length g = 3%nat) rest
        /\ length rest = separatorsInserted (digits this decimalSeparator)
        /\ currencyFormat this symbol groupSeparator decimalSeparator
           = symbol
               ++ (lead ++ flat_map (fun g => groupSeparator ++ g) rest)
               ++ decimals this decimalSeparator).
Proof.
  intros Hsep len.
  pose proof (separatorsInserted_count (digits this decimalSeparator)) as Hcount.
  rewrite length_digits in Hcount. fold len in Hcount.
  rewrite (currencyFormat_grouped _ _ _ _ Hsep).
  split.
  - intros H0. rewrite Hcount, H0. split; [reflexivity|].
    apply length_zero_iff_nil in H0. now rewrite H0.
  - intros H1. destruct len as [|m] eqn:E; [lia|]. clear H1.
    replace (Datatypes.S m - 1)%nat with m in Hcount by lia.
    split.
    + rewrite Hcount, Nat2Z.inj_div. f_equal. lia.
    + destruct (groups_shape _ m E) as (lead & rest & Hcut & Hip & Hl & HF & Hr).
      exists lead, rest. rewrite groupFromRight_join, Hcut, joinGroups_lead.
      pose proof (Nat.mod_upper_bound m 3 ltac:(lia)).
      repeat split; auto; try lia.
      now rewrite Hcount.
Qed.

Lemma C1_separators_between_groups_of_three_witness :
  lit "," <> []
  /\ Z.of_nat (separatorsInserted (digits (lit "1234567.89") (lit "."))) = 2
  /\ exists lead rest,
       integerPart (lit "1234567.89") (lit ".") = lead ++ concat rest
       /\ (1 <= length lead <= 3)%nat
       /\ Forall (fun g => length g = 3%nat) rest
       /\ length rest = separatorsInserted (digits (lit "1234567.89") (lit "."))
       /\ currencyFormat (lit "1234567.89") (lit "$") (lit ",") (lit ".")
          = lit "$" ++ (lead ++ flat_map (fun g => lit "," ++ g) rest)
                    ++ decimals (lit "1234567.89") (lit ".").
Proof.
  assert (Hs : lit "," <> []) by discriminate.
  split; [exact Hs |].
  apply (proj2 (C1_separators_between_groups_of_three
                  (lit "1234567.89") (lit "$") (lit ",") (lit ".") Hs)).
  vm_compute. lia.
Defined.

(** C7. Grouping is positional: two inputs whose integer parts have the
    same length are cut into groups of the same sizes, whatever their
    characters are, and the separator is put between the same groups, with
    the same number of separators; nothing is validated. *)
Theorem C7_grouping_positional
        (this1 this2 symbol groupSeparator decimalSeparator : str) :
  groupSeparator <> [] ->
  length (integerPart this1 decimalSeparator)
  = length (integerPart this2 decimalSeparator) ->
  exists sizes : list nat,
    list_sum sizes = length (integerPart this1 decimalSeparator)
    /\ currencyFormat this1 symbol groupSeparator decimalSeparator
       = symbol
           ++ joinGroups groupSeparator
                (cutGroups sizes (integerPart this1 decimalSeparator))
           ++ decimals this1 decimalSeparator
    /\ currencyFormat this2 symbol groupSeparator decimalSeparator
       = symbol
           ++ joinGroups groupSeparator
                (cutGroups sizes (integerPart this2 decimalSeparator))
           ++ decimals this2 decimalSeparator
    /\ separatorsInserted (digits this1 decimalSeparator)
       = separatorsInserted (digits this2 decimalSeparator).
Proof.
  intros Hsep Hlen.
  exists (groupSizes (length (integerPart this1 decimalSeparator))).
  split; [apply groupSizes_sum|].
  rewrite !(currencyFormat_grouped _ _ _ _ Hsep), !groupFromRight_join.
  rewrite !separatorsInserted_count, !length_digits, Hlen.
  repeat split.
Qed.

Lemma C7_grouping_positional_witness :
  lit "," <> []
  /\ length (integerPart (lit "1234.50") (lit "."))
     = length (integerPart (lit "ab-d") (lit "."))
  /\ exists sizes : list nat,
       list_sum sizes = length (integerPart (lit "1234.50") (lit "."))
       /\ currencyFormat (lit "1234.50") (lit "$") (lit ",") (lit ".")
          = lit "$"
              ++ joinGroups (lit ",")
                   (cutGroups sizes (integerPart (lit "1234.50") (lit ".")))
              ++ decimals (lit "1234.50") (lit ".")
       /\ currencyFormat (lit "ab-d") (lit "$") (lit ",") (lit ".")
          = lit "$"
              ++ joinGroups (lit ",")
                   (cutGroups sizes (integerPart (lit "ab-d") (lit ".")))
              ++ decimals (lit "ab-d") (lit ".")
       /\ separatorsInserted (digits (lit "1234.50") (lit "."))
          = separatorsInserted (digits (lit "ab-d") (lit ".")).
Proof.
  assert (Hs : lit "," <> []) by discriminate.
  assert (Hl : length (integerPart (lit "1234.50") (lit "."))
               = length (integerPart (lit "ab-d") (lit "."))) by reflexivity.
  split; [exact Hs | split; [exact Hl |]].
  exact (C7_grouping_positional (lit "1234.50") (lit "ab-d") (lit "$")
           (lit ",") (lit ".") Hs Hl).
Defined.

(** C4. For a string [s] of ASCII digits with at most one period,
    formatting with ["$ "], [","], ["."] and unformatting with the default
    pattern gives [s] back. *)
Theorem C4_round_trip (s : str) :
  Forall (fun c => digitOrPeriod c = true) s ->
  (count_occ N.eq_dec s 46%N <= 1)%nat ->
  currencyUnformat (currencyFormat s (lit "$ ") (lit ",") (lit ".")) None = s.
Proof.
  intros Hchars _.
  rewrite currencyUnformat_default, currencyFormat_grouped by discriminate.
  rewrite !filter_app, filter_groupFromRight by reflexivity.
  change (filter keptByDefault (lit "$ ")) with (@nil code_unit).
  rewrite <- filter_app, integerPart_decimals. cbn [app].
  apply filter_all. revert Hchars. apply Forall_impl.
  exact digitOrPeriod_kept.
Qed.

Lemma C4_round_trip_witness :
  Forall (fun c => digitOrPeriod c = true) (lit "1234567.89")
  /\ (count_occ N.eq_dec (lit "1234567.89") 46%N <= 1)%nat
  /\ currencyUnformat
       (currencyFormat (lit "1234567.89") (lit "$ ") (lit ",") (lit ".")) None
     = lit "1234567.89".
Proof.
  assert (Hc : Forall (fun c => digitOrPeriod c = true) (lit "1234567.89"))
    by (repeat constructor).
  assert (Hp : (count_occ N.eq_dec (lit "1234567.89") 46%N <= 1)%nat)
    by (vm_compute; lia).
  split; [exact Hc | split; [exact Hp |]].
  exact (C4_round_trip (lit "1234567.89") Hc Hp).
Defined.

(** ** Further properties of [currencyFormat] *)

Section FormatFacts.

Lemma length_groupFromRight (groupSeparator s : str) :
  length (groupFromRight groupSeparator s)
  = (length s + ((length s - 1) / 3) * length groupSeparator)%nat.
Proof.
  induction s as [|c t IH]; [reflexivity|].
  cbn [groupFromRight length]. rewrite Nat.sub_succ, Nat.sub_0_r.
  destruct t as [|c' t']; [reflexivity|].
  set (t := c' :: t') in *.
  change (length t) with (Datatypes.S (length t')) in *.
  rewrite Nat.sub_succ, Nat.sub_0_r in IH.
  destruct (succ_divmod3 (length t')) as [(_ & H0 & Hq) | (_ & Hs & Hq)].
  - rewrite H0, Hq. cbn [Nat.eqb andb negb].
    rewrite length_app, IH. cbn [Nat.mul]. lia.
  - rewrite Hs, Hq. cbn [Nat.eqb andb negb]. rewrite IH. lia.
Qed.

Lemma groupFromRight_short (groupSeparator s : str) :
  (length s <= 3)%nat -> groupFromRight groupSeparator s = s.
Proof.
  destruct s as [|a [|b [|c [|d s]]]]; intros H; try reflexivity.
  simpl in H. lia.
Qed.

Lemma occurs_at_skipn (searchStr S : str) (p j : nat) :
  (p <= length S)%nat ->
  occurs_at searchStr (skipn p S) j -> occurs_at searchStr S (p + j).
Proof.
  intros Hp (pre & post & E & <-).
  exists (firstn p S ++ pre), post. split.
  - rewrite <- app_assoc, <- E. symmetry. apply firstn_skipn.
  - rewrite length_app, length_firstn. lia.
Qed.

End FormatFacts.

(** X1. With a group separator, the output is as long as the symbol and the
    input together, plus the length of the group separator for every turn
    of the loop that inserts it. *)
Theorem currencyFormat_length (this symbol groupSeparator decimalSeparator : str) :
  groupSeparator <> [] ->
  length (currencyFormat this symbol groupSeparator decimalSeparator)
  = (length symbol + length this
     + separatorsInserted (digits this decimalSeparator)
       * length groupSeparator)%nat.
Proof.
  intros Hsep.
  rewrite (currencyFormat_grouped _ _ _ _ Hsep), !length_app.
  rewrite length_groupFromRight, separatorsInserted_count, length_digits.
  pose proof (f_equal (@length code_unit)
                (integerPart_decimals this decimalSeparator)) as L.
  rewrite length_app in L. lia.
Qed.

Lemma currencyFormat_length_witness :
  lit ", " <> []
  /\ length (currencyFormat (lit "1234567.89") (lit "$") (lit ", ") (lit "."))
     = (1 + 10 + 2 * 2)%nat.
Proof.
  assert (Hs : lit ", " <> []) by discriminate.
  split; [exact Hs |].
  exact (currencyFormat_length (lit "1234567.89") (lit "$") (lit ", ") (lit ".")
           Hs).
Defined.

(** X2. When the part before the split has at most three characters, the
    output is the symbol followed by the input as it is, whatever the group
    separator. *)
Theorem currencyFormat_short_integer_part
        (this symbol groupSeparator decimalSeparator : str) :
  (length (integerPart this decimalSeparator) <= 3)%nat ->
  currencyFormat this symbol groupSeparator decimalSeparator = symbol ++ this.
Proof.
  intros Hlen.
  destruct groupSeparator as [|g gs] eqn:E; [reflexivity|].
  rewrite currencyFormat_grouped by discriminate.
  rewrite groupFromRight_short by exact Hlen.
  now rewrite integerPart_decimals.
Qed.

Lemma currencyFormat_short_integer_part_witness :
  (length (integerPart (lit "999.5") (lit ".")) <= 3)%nat
  /\ currencyFormat (lit "999.5") (lit "$") (lit ",") (lit ".")
     = lit "$" ++ lit "999.5".
Proof.
  assert (Hl : (length (integerPart (lit "999.5") (lit ".")) <= 3)%nat)
    by (vm_compute; lia).
  split; [exact Hl |].
  exact (currencyFormat_short_integer_part (lit "999.5") (lit "$") (lit ",")
           (lit ".") Hl).
Defined.

(** X3. The split loses nothing: for every input and decimal separator, the
    digits put back in reading order, followed by the decimals, are the
    input. *)
Theorem split_lossless (this decimalSeparator : str) :
  concat (reverse (digits this decimalSeparator))
    ++ decimals this decimalSeparator
  = this.
Proof.
  exact (integerPart_decimals this decimalSeparator).
Qed.

(** X4. When the decimal separator occurs in the input, the decimals begin
    with it and it occurs nowhere further inside them: the split is at the
    last occurrence, so an input with several markers keeps the earlier
    ones in the part that is grouped. *)
Theorem decimals_begin_with_separator (this decimalSeparator : str) :
  (exists k, occurs_at decimalSeparator this k) ->
  (exists tail, decimals this decimalSeparator = decimalSeparator ++ tail)
  /\ forall j, (0 < j)%nat ->
               ~ occurs_at decimalSeparator (decimals this decimalSeparator) j.
Proof.
  intros [k Hk].
  destruct (split_cases this decimalSeparator)
    as [(_ & Habs & _) | (p & _ & Hp & Hocc & Hlast & Hdec & _)].
  - destruct (Habs k Hk).
  - rewrite Hdec. split.
    + destruct Hocc as (pre & post & E & L). exists post.
      rewrite E, <- L, skipn_app, skipn_all, Nat.sub_diag. reflexivity.
    + intros j Hj Hin. apply (Hlast (p + j)%nat); [lia|].
      now apply occurs_at_skipn.
Qed.

Lemma decimals_begin_with_separator_witness :
  (exists k, occurs_at (lit ".") (lit "1.234.56") k)
  /\ (exists tail, decimals (lit "1.234.56") (lit ".") = lit "." ++ tail)
  /\ forall j, (0 < j)%nat ->
               ~ occurs_at (lit ".") (decimals (lit "1.234.56") (lit ".")) j.
Proof.
  assert (Ho : exists k, occurs_at (lit ".") (lit "1.234.56") k)
    by (exists 1%nat; apply match_at_occurs; reflexivity).
  split; [exact Ho |].
  exact (decimals_begin_with_separator (lit "1.234.56") (lit ".") Ho).
Defined.

(** X5. The loop's test on the string key is the test on the index: [i + 1]
    appends a 1 to the key and reads as [10 * i + 1], which has the
    remainder of [i + 1] modulo 3; so a separator is due exactly when
    [i + 1] is a multiple of 3 and a digit is left to place. *)
Theorem separatorDue_numeric (digitsLength i : nat) :
  ToNumber (string_plus_number (Nat.to_uint i) 1) = 10 * Z.of_nat i + 1
  /\ (separatorDue (Z.of_nat digitsLength) (Nat.to_uint i) = true
      <-> ((i + 1) mod 3 = 0 /\ i + 1 < digitsLength)%nat).
Proof.
  split; [apply ToNumber_key_plus_1|].
  rewrite separatorDue_index, succ_mod3_eqb, andb_true_iff.
  rewrite Nat.eqb_eq, Z.ltb_lt, Nat.add_1_r. split; intros [H1 H2]; split;
    auto; lia.
Qed.

(** ** Further properties of [currencyUnformat] *)

Section UnformatFacts.

Lemma currencyUnformat_filter (this : str) (regex : option regex) :
  currencyUnformat this regex
  = filter (fun c => negb (class_matches
                             match regex with
                             | Some r => r
                             | None => defaultPattern
                             end c)) this.
Proof.
  unfold currencyUnformat, replace. apply replace_scan_empty.
Qed.

Lemma filter_matched (r : JS.regex) (l : str) :
  Forall (fun c => class_matches r c = true) l ->
  filter (fun c => negb (class_matches r c)) l = [].
Proof.
  induction 1 as [|c l Hc _ IH]; [reflexivity|].
  cbn [filter]. now rewrite Hc.
Qed.

(** A filter that drops the symbol and the group separator sees the
    formatted string as it sees the input. *)
Lemma filter_currencyFormat (keep : code_unit -> bool)
      (this symbol groupSeparator decimalSeparator : str) :
  filter keep symbol = [] ->
  filter keep groupSeparator = [] ->
  filter keep (currencyFormat this symbol groupSeparator decimalSeparator)
  = filter keep this.
Proof.
  intros Hsym Hsep.
  destruct groupSeparator as [|g gs] eqn:E.
  - unfold currencyFormat. cbn [str_eqb negb].
    now rewrite filter_app, Hsym.
  - rewrite currencyFormat_grouped by discriminate.
    rewrite !filter_app, filter_groupFromRight by exact Hsep.
    rewrite Hsym, <- filter_app, integerPart_decimals. reflexivity.
Qed.

End UnformatFacts.

(** X6. Whatever the pattern, given or default, the result holds no code
    unit the pattern's class matches, is no longer than the input, and is
    the input with exactly the matching code units taken out, the others
    staying in their order. *)
Theorem currencyUnformat_strips_matches (this : str) (regex : option regex) :
  let pattern := match regex with Some r => r | None => defaultPattern end in
  currencyUnformat this regex
  = filter (fun c => negb (class_matches pattern c)) this
  /\ Forall (fun c => class_matches pattern c = false)
            (currencyUnformat this regex)
  /\ (length (currencyUnformat this regex) <= length this)%nat.
Proof.
  intros pattern. rewrite currencyUnformat_filter. fold pattern.
  split; [reflexivity | split].
  - apply Forall_forall. intros c Hc. apply filter_In in Hc.
    now apply negb_true_iff.
  - apply filter_length_le.
Qed.

(** X7. Unformatting a concatenation is concatenating the unformatted
    parts: every match is replaced by the empty string, so a match that
    spans the seam leaves nothing behind either way. *)
Theorem currencyUnformat_app (a b : str) (regex : option regex) :
  currencyUnformat (a ++ b) regex
  = currencyUnformat a regex ++ currencyUnformat b regex.
Proof.
  rewrite !currencyUnformat_filter. apply filter_app.
Qed.

(** X8. Unformatting is idempotent for every pattern of the modelled shape,
    not only for the default one. *)
Theorem currencyUnformat_idempotent_any_pattern (s : str) (regex : option regex) :
  currencyUnformat (currencyUnformat s regex) regex = currencyUnformat s regex.
Proof.
  rewrite !currencyUnformat_filter. apply filter_idempotent.
Qed.

(** X9. If the pattern matches every code unit of the symbol and of the
    group separator, formatting does not change what unformatting
    extracts: unformatting the formatted string gives what unformatting the
    input gives. *)
Theorem currencyUnformat_currencyFormat
        (this symbol groupSeparator decimalSeparator : str)
        (regex : option regex) :
  let pattern := match regex with Some r => r | None => defaultPattern end in
  Forall (fun c => class_matches pattern c = true) symbol ->
  Forall (fun c => class_matches pattern c = true) groupSeparator ->
  currencyUnformat
    (currencyFormat this symbol groupSeparator decimalSeparator) regex
  = currencyUnformat this regex.
Proof.
  intros pattern Hsym Hsep.
  rewrite !currencyUnformat_filter. fold pattern.
  apply filter_currencyFormat; now apply filter_matched.
Qed.

Lemma currencyUnformat_currencyFormat_witness :
  Forall (fun c => class_matches defaultPattern c = true) (lit "USD ")
  /\ Forall (fun c => class_matches defaultPattern c = true) (lit ",")
  /\ currencyUnformat
       (currencyFormat (lit "about 1234567.5") (lit "USD ") (lit ",") (lit "."))
       None
     = currencyUnformat (lit "about 1234567.5") None.
Proof.
  assert (H1 : Forall (fun c => class_matches defaultPattern c = true) (lit "USD "))
    by (repeat constructor).
  assert (H2 : Forall (fun c => class_matches defaultPattern c = true) (lit ","))
    by (repeat constructor).
  split; [exact H1 | split; [exact H2 |]].
  exact (currencyUnformat_currencyFormat (lit "about 1234567.5") (lit "USD ")
           (lit ",") (lit ".") None H1 H2).
Defined.

(** X10. Round trip with a pattern of the caller's: if the pattern matches
    every code unit of the symbol and of the group separator and none of
    the input, unformatting the formatted input gives the input back,
    whatever the separators are. *)
Theorem round_trip_custom_pattern
        (this symbol groupSeparator decimalSeparator : str) (r : JS.regex) :
  Forall (fun c => class_matches r c = true) symbol ->
  Forall (fun c => class_matches r c = true) groupSeparator ->
  Forall (fun c => class_matches r c = false) this ->
  currencyUnformat
    (currencyFormat this symbol groupSeparator decimalSeparator) (Some r)
  = this.
Proof.
  intros Hsym Hsep Hin.
  rewrite currencyUnformat_filter.
  rewrite filter_currencyFormat by now apply filter_matched.
  apply filter_all. revert Hin. apply Forall_impl.
  intros c Hc. now rewrite Hc.
Qed.

Lemma round_trip_custom_pattern_witness :
  Forall (fun c => class_matches (ClassPlusG true [ClassDigit; ClassChar 44%N]) c = true) (lit "EUR ")
  /\ Forall (fun c => class_matches (ClassPlusG true [ClassDigit; ClassChar 44%N]) c = true) (lit ".")
  /\ Forall (fun c => class_matches (ClassPlusG true [ClassDigit; ClassChar 44%N]) c = false) (lit "1234567,89")
  /\ currencyUnformat
       (currencyFormat (lit "1234567,89") (lit "EUR ") (lit ".") (lit ","))
       (Some (ClassPlusG true [ClassDigit; ClassChar 44%N]))
     = lit "1234567,89".
Proof.
  assert (H1 : Forall (fun c => class_matches (ClassPlusG true [ClassDigit; ClassChar 44%N]) c = true) (lit "EUR "))
    by (repeat constructor).
  assert (H2 : Forall (fun c => class_matches (ClassPlusG true [ClassDigit; ClassChar 44%N]) c = true) (lit "."))
    by (repeat constructor).
  assert (H3 : Forall (fun c => class_matches (ClassPlusG true [ClassDigit; ClassChar 44%N]) c = false) (lit "1234567,89"))
    by (repeat constructor).
  split; [exact H1 | split; [exact H2 | split; [exact H3 |]]].
  exact (round_trip_custom_pattern (lit "1234567,89") (lit "EUR ") (lit ".")
           (lit ",") (ClassPlusG true [ClassDigit; ClassChar 44%N]) H1 H2 H3).
Defined.

(** X11. On an input without vertical bar and caret the default pattern
    does what the function's comment says: the result is the input's digits
    and periods, in order, and nothing else. *)
Theorem currencyUnformat_default_without_bar_caret (s : str) :
  Forall (fun c => c <> 124%N /\ c <> 94%N) s ->
  currencyUnformat s None = filter digitOrPeriod s.
Proof.
  intros H. rewrite currencyUnformat_default.
  induction H as [|c l [Hbar Hcaret] _ IH]; [reflexivity|].
  cbn [filter]. rewrite IH, keptByDefault_spec.
  apply N.eqb_neq in Hbar, Hcaret. rewrite Hbar, Hcaret.
  unfold digitOrPeriod. now rewrite !orb_false_r.
Qed.

Lemma currencyUnformat_default_without_bar_caret_witness :
  Forall (fun c => c <> 124%N /\ c <> 94%N)
         (lit "Total: $ 12,345,678.90 (annual)")
  /\ currencyUnformat (lit "Total: $ 12,345,678.90 (annual)") None
     = filter digitOrPeriod (lit "Total: $ 12,345,678.90 (annual)").
Proof.
  assert (H : Forall (fun c => c <> 124%N /\ c <> 94%N)
                     (lit "Total: $ 12,345,678.90 (annual)"))
    by (repeat constructor; discriminate).
  split; [exact H |].
  exact (currencyUnformat_default_without_bar_caret _ H).
Defined.

(** X12. The strings the default unformatting leaves unchanged are exactly
    those made of digits, periods, vertical bars and carets. *)
Theorem currencyUnformat_fixed_points (s : str) :
  currencyUnformat s None = s
  <-> Forall (fun c => (isDigit c || N.eqb c 124 || N.eqb c 94
                        || isPeriod c)%bool = true) s.
Proof.
  rewrite currencyUnformat_default. split.
  - intros E. rewrite <- E. apply Forall_forall. intros c Hc.
    apply filter_In in Hc. rewrite <- keptByDefault_spec. tauto.
  - intros H. apply filter_all. revert H. apply Forall_impl.
    intros c Hc. now rewrite keptByDefault_spec.
Qed.
